(** * external-anchors-use-rel-noopener: the audit and its properties

    A shallow embedding of
    [lighthouse-core/audits/dobetterweb/external-anchors-use-rel-noopener.js]:
    the JavaScript values and string methods the audit uses ([JS]), the
    collaborators that live in other files ([URL], [str_]), the audit itself
    ([audit]) and the properties of its result. *)

From Stdlib Require Import String Ascii List ZArith Bool Lia.
From stdpp Require Import base list.
Import ListNotations.

Local Open Scope string_scope.
Local Open Scope list_scope.

(** ** JavaScript values and primitives *)

Module JS.

(** An attribute of an anchor record is a string or is absent
    ([undefined]). *)
Definition value := option string.

Inductive exn : Type :=
| TypeError (message : string).

(** The outcome of evaluating an expression: a value, or a thrown
    exception. *)
Inductive completion (A : Type) : Type :=
| Normal (a : A)
| Throw (e : exn).
Arguments Normal {A} a.
Arguments Throw {A} e.

Definition bind {A B} (c : completion A) (k : A -> completion B) : completion B :=
  match c with
  | Normal a => k a
  | Throw e => Throw e
  end.

(** [!!v]: [undefined] and the empty string are falsy. *)
Definition truthy (v : value) : bool :=
  match v with
  | Some (String _ _) => true
  | _ => false
  end.

(** [v || d] for a string default [d]. *)
Definition or_default (v : value) (d : string) : string :=
  match v with
  | Some (String c s) => String c s
  | _ => d
  end.

(** [v === s] for a string literal [s]. *)
Definition strict_eq (v : value) (s : string) : bool :=
  match v with
  | Some t => String.eqb t s
  | None => false
  end.

(** [String(v)], the conversion a constructor applies to its argument. *)
Definition ToString (v : value) : string :=
  match v with
  | Some s => s
  | None => "undefined"
  end.

(** [Number(b)] for a boolean. *)
Definition Number (b : bool) : Z := if b then 1%Z else 0%Z.

(** [s.startsWith(p)] *)
Fixpoint startsWith (s p : string) {struct p} : bool :=
  match p with
  | EmptyString => true
  | String c p' =>
      match s with
      | EmptyString => false
      | String d s' => Ascii.eqb d c && startsWith s' p'
      end
  end.

(** [s.includes(t)]: [t] occurs somewhere in [s]. *)
Fixpoint includes (s t : string) : bool :=
  startsWith s t ||
  match s with
  | EmptyString => false
  | String _ s' => includes s' t
  end.

Definition is_upper (c : ascii) : bool :=
  (65 <=? nat_of_ascii c)%nat && (nat_of_ascii c <=? 90)%nat.

Definition lower_char (c : ascii) : ascii :=
  if is_upper c then ascii_of_nat (nat_of_ascii c + 32) else c.

(** [s.toLowerCase()]. Strings are sequences of 8-bit units and only
    [A]-[Z] are mapped; in Unicode no other character lowers to [h], [t]
    or [p], which is all the audit looks at after lowering. *)
Fixpoint toLowerCase (s : string) : string :=
  match s with
  | EmptyString => EmptyString
  | String c s' => String (lower_char c) (toLowerCase s')
  end.

(** [l.filter(f)] for a callback that may throw: the elements are visited
    in order and the first exception ends the traversal. *)
Fixpoint filter_throwing {A} (f : A -> completion bool) (l : list A)
  : completion (list A) :=
  match l with
  | [] => Normal []
  | x :: l' =>
      bind (f x) (fun keep =>
      bind (filter_throwing f l') (fun rest =>
      Normal (if keep then x :: rest else rest)))
  end.

(** [l.filter(f)] for a callback that updates a store [S] it closes over:
    the store is threaded through the calls in order. *)
Fixpoint filter_stateful {A S} (f : A -> S -> bool * S) (l : list A) (s : S)
  : list A * S :=
  match l with
  | [] => ([], s)
  | x :: l' =>
      let '(keep, s1) := f x s in
      let '(rest, s2) := filter_stateful f l' s1 in
      (if keep then x :: rest else rest, s2)
  end.

End JS.

Import JS.

Declare Scope js_scope.
Delimit Scope js_scope with js.
Notation "'let*' x ':=' c 'in' k" := (bind c (fun x => k))
  (at level 10, x name, c at level 100, k at level 200) : js_scope.
Local Open Scope js_scope.

(** ** Data model *)

(** An element of [artifacts.AnchorElements]. *)
Record AnchorElement : Type := {
  href : value;
  target : value;
  rel : value;
  outerHTML : value;
}.

(** A row of [failingAnchors]. *)
Record AnchorSummary : Type := {
  item_href : string;
  item_target : string;
  item_rel : string;
  item_outerHTML : string;
}.

Record Artifacts : Type := {
  finalUrl : string;                      (* artifacts.URL.finalUrl *)
  AnchorElements : list AnchorElement;
}.

Record Heading : Type := {
  key : string;
  itemType : string;
  text : string;
}.

Record TableDetails : Type := {
  headings : list Heading;
  items : list AnchorSummary;
}.

Record ExtendedInfo : Type := {
  value_ : list AnchorSummary;            (* extendedInfo.value *)
}.

Record Product : Type := {
  score : Z;
  extendedInfo : ExtendedInfo;
  details : TableDetails;
  warnings : list string;
}.

(** The list the source calls [failingAnchors], as the result exposes it. *)
Definition failingAnchors (p : Product) : list AnchorSummary :=
  value_ (extendedInfo p).

Module UIStrings.
Definition warning : string :=
  String.append
  "Unable to determine the destination for anchor ({anchorHTML}). "
  "If not used as a hyperlink, consider removing target=_blank.".
Definition columnTarget : string := "Target".
Definition columnRel : string := "Rel".
End UIStrings.

(** ** Collaborators

    What the audit imports from files that are not part of these sources:
    [lib/url-shim.js] (the [URL] constructor), [lib/i18n/i18n.js] (the
    message function [str_] and the shared column label) and
    [audits/audit.js] (the base class, for the table).  The audit is
    written against this interface, and the properties below hold for every
    implementation of it. *)
Class Imports : Type := {
  (** [new URL(s).host]; [None] when the constructor throws. *)
  URL_host : string -> option string;
  (** [str_(message, values)]: the message with its placeholders filled. *)
  str_ : string -> list (string * value) -> string;
  (** [i18n.UIStrings.columnURL] *)
  columnURL : string;
  (** [Audit.makeTableDetails(headings, results)] *)
  makeTableDetails : list Heading -> list AnchorSummary -> TableDetails;
}.

(** ** The audit *)

Section Audit.

Context {imports : Imports}.

(** [new URL(v).host] *)
Definition new_URL_host (v : value) : completion string :=
  match URL_host (ToString v) with
  | Some host => Normal host
  | None => Throw (TypeError (String.append "Invalid URL: " (ToString v)))
  end.

(** Lines 58-59, the first filter: reading [includes] off an absent [rel]
    throws, and [&&] only gets there when the target is [_blank]. *)
Definition stageA (anchor : AnchorElement) : completion bool :=
  if strict_eq (target anchor) "_blank" then
    match rel anchor with
    | Some r => Normal (negb (includes r "noopener") && negb (includes r "noreferrer"))
    | None => Throw (TypeError "Cannot read property 'includes' of undefined")
    end
  else Normal false.

(** The message pushed at line 65. *)
Definition warning_for (anchor : AnchorElement) : string :=
  str_ UIStrings.warning [("anchorHTML", outerHTML anchor)].

(** Lines 61-68, the second filter, with the [warnings] array it pushes to. *)
Definition stageB (pageHost : string) (anchor : AnchorElement) (warnings : list string)
  : bool * list string :=
  match new_URL_host (href anchor) with
  | Normal host => (negb (String.eqb host pageHost), warnings)
  | Throw _ => (true, warnings ++ [warning_for anchor])
  end.

(** Lines 69-71, the third filter. The right operand of [||] is evaluated
    only for a truthy href, which is a string. *)
Definition stageC (anchor : AnchorElement) : bool :=
  negb (truthy (href anchor)) ||
  match href anchor with
  | Some h => startsWith (toLowerCase h) "http"
  | None => false
  end.

(** Lines 72-79, the callback of [map]. *)
Definition summary (anchor : AnchorElement) : AnchorSummary :=
  {| item_href := or_default (href anchor) "Unknown";
     item_target := or_default (target anchor) "";
     item_rel := or_default (rel anchor) "";
     item_outerHTML := or_default (outerHTML anchor) "" |}.

(** Lines 57-71: the three filters in sequence, giving the anchors that are
    handed to [map] and the [warnings] array after the second filter. *)
Definition filter_chain (pageHost : string) (anchors : list AnchorElement)
  (warnings : list string) : completion (list AnchorElement * list string) :=
  let* risky := filter_throwing stageA anchors in
  let '(external, warnings) := filter_stateful (stageB pageHost) risky warnings in
  Normal (List.filter stageC external, warnings).

Definition audit (artifacts : Artifacts) : completion Product :=
  let warnings := [] in
  let* pageHost := new_URL_host (Some (finalUrl artifacts)) in
  let* kept := filter_chain pageHost (AnchorElements artifacts) warnings in
  let failingAnchors := map summary (fst kept) in
  let warnings := snd kept in
  let headings :=
    [ {| key := "href"; itemType := "url"; text := str_ columnURL [] |};
      {| key := "target"; itemType := "text"; text := str_ UIStrings.columnTarget [] |};
      {| key := "rel"; itemType := "text"; text := str_ UIStrings.columnRel [] |} ] in
  let details := makeTableDetails headings failingAnchors in
  Normal {| score := Number (Nat.eqb (length failingAnchors) 0);
            extendedInfo := {| value_ := failingAnchors |};
            details := details;
            warnings := warnings |}.

(** The anchors behind the rows of [failingAnchors]: what is left of the
    input list when [map] is reached. *)
Definition failing_elements (artifacts : Artifacts) : completion (list AnchorElement) :=
  let* pageHost := new_URL_host (Some (finalUrl artifacts)) in
  let* kept := filter_chain pageHost (AnchorElements artifacts) [] in
  Normal (fst kept).

(** An anchor appears in [failingAnchors] when it is one of those. *)
Definition appears_in_failingAnchors (artifacts : Artifacts) (anchor : AnchorElement)
  : Prop :=
  exists kept, failing_elements artifacts = Normal kept /\ anchor ∈ kept.

(** The input as [LH.Artifacts], the declared type of the argument of
    [audit], has it: every anchor comes with a [rel] string.  (The records
    of this embedding may lack one; line 58 throws on those.) *)
Definition well_typed (artifacts : Artifacts) : Prop :=
  forall anchor, anchor ∈ AnchorElements artifacts -> rel anchor <> None.

(** *** The filter predicates, as the specification words them *)

(** [t] occurs in [s] as a substring. *)
Definition contains (s t : string) : Prop :=
  exists u v, s = String.append u (String.append t v).

(** Stage A: the target is [_blank] and the rel string names neither
    [noopener] nor [noreferrer]. *)
Definition behavioral_risk (anchor : AnchorElement) : Prop :=
  target anchor = Some "_blank" /\
  exists r, rel anchor = Some r /\ ~ contains r "noopener" /\ ~ contains r "noreferrer".

(** Whether the href of an anchor fails to parse as a URL. *)
Definition unparsable (anchor : AnchorElement) : Prop :=
  URL_host (ToString (href anchor)) = None.

(** Stage B: the href does not parse, or its host is not the page's. *)
Definition cross_origin_or_unparsable (pageHost : string) (anchor : AnchorElement) : Prop :=
  unparsable anchor \/
  exists host, URL_host (ToString (href anchor)) = Some host /\ host <> pageHost.

(** Stage C: no href (absent or empty), or one that starts with [http] once
    lowered. *)
Definition http_or_no_href (anchor : AnchorElement) : Prop :=
  href anchor = None \/ href anchor = Some "" \/
  exists h, href anchor = Some h /\ startsWith (toLowerCase h) "http" = true.

(** The outcome of each stage for one anchor, as a boolean: stage A where
    it does not throw, stage B apart from its push, and the three together. *)
Definition passes_stageA (anchor : AnchorElement) : bool :=
  match stageA anchor with
  | Normal keep => keep
  | Throw _ => false
  end.

Definition href_unparsable (anchor : AnchorElement) : bool :=
  match new_URL_host (href anchor) with
  | Normal _ => false
  | Throw _ => true
  end.

Definition passes_stageB (pageHost : string) (anchor : AnchorElement) : bool :=
  fst (stageB pageHost anchor []).

Definition keeps (pageHost : string) (anchor : AnchorElement) : bool :=
  passes_stageA anchor && passes_stageB pageHost anchor && stageC anchor.

(** The anchors that reach the [catch] of the second filter. *)
Definition warned (anchor : AnchorElement) : bool :=
  passes_stageA anchor && href_unparsable anchor.

(** The row the specification describes for an anchor: the href, or
    [Unknown] when it is absent or empty; the target, rel and outerHTML, or
    the empty string when absent. *)
Definition or_when_absent (v : value) (d s : string) : Prop :=
  (forall x, v = Some x -> s = x) /\ (v = None -> s = d).

Definition summarizes (anchor : AnchorElement) (row : AnchorSummary) : Prop :=
  (forall h, href anchor = Some h -> h <> "" -> item_href row = h) /\
  (href anchor = None \/ href anchor = Some "" -> item_href row = "Unknown") /\
  or_when_absent (target anchor) "" (item_target row) /\
  or_when_absent (rel anchor) "" (item_rel row) /\
  or_when_absent (outerHTML anchor) "" (item_outerHTML row).

End Audit.

(** ** A reference implementation of the collaborators

    Used to run the audit on concrete pages. *)

Module Model.

Definition in_range (lo hi : nat) (c : ascii) : bool :=
  (lo <=? nat_of_ascii c)%nat && (nat_of_ascii c <=? hi)%nat.

Definition is_alpha (c : ascii) : bool := in_range 65 90 c || in_range 97 122 c.

Definition is_scheme_char (c : ascii) : bool :=
  is_alpha c || in_range 48 57 c ||
  Ascii.eqb c "+" || Ascii.eqb c "-" || Ascii.eqb c ".".

(** Reads [scheme ":"] off the front of [s]; [acc] is the scheme so far. *)
Fixpoint read_scheme (acc s : string) : option (string * string) :=
  match s with
  | EmptyString => None
  | String c s' =>
      if Ascii.eqb c ":" then Some (acc, s')
      else if is_scheme_char c then read_scheme (String.append acc (String c "")) s'
      else None
  end.

Definition split_scheme (s : string) : option (string * string) :=
  match s with
  | String c _ => if is_alpha c then read_scheme "" s else None
  | EmptyString => None
  end.

Definition is_slash (c : ascii) : bool := Ascii.eqb c "/" || Ascii.eqb c "\".

Fixpoint skip_slashes (s : string) : string :=
  match s with
  | String c s' => if is_slash c then skip_slashes s' else s
  | EmptyString => EmptyString
  end.

(** The text up to the first of [/], [\], [?] and [#]. *)
Fixpoint authority (s : string) : string :=
  match s with
  | String c s' =>
      if is_slash c || Ascii.eqb c "?" || Ascii.eqb c "#" then EmptyString
      else String c (authority s')
  | EmptyString => EmptyString
  end.

Definition is_special (scheme : string) : bool :=
  String.eqb scheme "http" || String.eqb scheme "https" ||
  String.eqb scheme "ws" || String.eqb scheme "wss" || String.eqb scheme "ftp".

(** Modelled from the spec: [lib/url-shim.js] is missing from the sources;
    the specification has the audit "attempt to parse its [href] as a URL
    and compare its host", with a failure when the text is not a URL.  The
    model follows the URL standard for a constructor called without a base,
    on texts without credentials, port, escapes or surrounding blanks: a
    text that does not begin with a scheme is not a URL; [http], [https],
    [ws], [wss] and [ftp] need a host, found after any run of slashes and
    lowered; for another scheme the host is what follows [//], and is empty
    without it. *)
Definition url_host (s : string) : option string :=
  match split_scheme s with
  | None => None
  | Some (scheme, rest) =>
      if is_special (toLowerCase scheme) then
        match authority (skip_slashes rest) with
        | EmptyString => None
        | host => Some (toLowerCase host)
        end
      else if startsWith rest "//" then
        Some (authority (String.substring 2 (String.length rest - 2) rest))
      else Some EmptyString
  end.

(** [s] with the first occurrence of [pat] replaced by [by_]. *)
Fixpoint replace_first (pat by_ s : string) : string :=
  if startsWith s pat then
    String.append by_ (String.substring (String.length pat) (String.length s - String.length pat) s)
  else
    match s with
    | EmptyString => EmptyString
    | String c s' => String c (replace_first pat by_ s')
    end.

(** Modelled from the spec: [lib/i18n/i18n.js] is missing from the sources;
    the specification wants "a warning message identifying the anchor by
    its [outerHTML] snippet".  Each placeholder [{name}] of the message is
    replaced by the value given for [name]; a placeholder whose value is
    absent stays as it is. *)
Definition format_message (message : string) (values : list (string * value)) : string :=
  fold_left
    (fun m kv =>
       match snd kv with
       | Some v => replace_first (String.append "{" (String.append (fst kv) "}")) v m
       | None => m
       end)
    values message.

(** Modelled from the spec: [audits/audit.js] is missing from the sources;
    the specification has the result carry "a table description (column
    keys [href]/[target]/[rel] with display labels)" and "the
    [failingAnchors] rows". *)
Definition table_details (hs : list Heading) (rows : list AnchorSummary) : TableDetails :=
  {| headings := hs; items := rows |}.

#[export] Instance imports : Imports :=
  {| URL_host := url_host; str_ := format_message; columnURL := "URL";
     makeTableDetails := table_details |}.

End Model.

(** ** Sample pages *)

Module Samples.

Definition anchor (h t r o : value) : AnchorElement :=
  {| href := h; target := t; rel := r; outerHTML := o |}.

Definition page (anchors : list AnchorElement) : Artifacts :=
  {| finalUrl := "https://a.com"; AnchorElements := anchors |}.

(** Scenario 1 of the specification. *)
Definition external_link : AnchorElement :=
  anchor (Some "https://b.com/x") (Some "_blank") (Some "") None.

(** Scenario 2. *)
Definition noopener_link : AnchorElement :=
  anchor (Some "https://b.com") (Some "_blank") (Some "noopener") None.

(** Scenario 3. *)
Definition same_host_link : AnchorElement :=
  anchor (Some "https://a.com/page") (Some "_blank") (Some "") None.

(** Scenario 4. *)
Definition not_a_url : AnchorElement :=
  anchor (Some "not a url") (Some "_blank") (Some "")
         (Some "<a href='not a url' target='_blank'>x</a>").

(** Scenario 5. *)
Definition mailto_link : AnchorElement :=
  anchor (Some "mailto:x@b.com") (Some "_blank") (Some "") None.

(** Scenario 6. *)
Definition no_href : AnchorElement :=
  anchor None (Some "_blank") (Some "") (Some "<a target='_blank'>x</a>").

(** An unparsable href on an anchor that opens in the same tab. *)
Definition same_tab_not_a_url : AnchorElement :=
  anchor (Some "not a url") (Some "_self") (Some "") (Some "<a href='not a url'>x</a>").

(** An href with a scheme and no host. *)
Definition bare_scheme : AnchorElement :=
  anchor (Some "HTTP://") (Some "_blank") (Some "nofollow") (Some "<a>bare</a>").

End Samples.

(** ** Proof steps *)

(** Runs [audit] on [artifacts] and hands the product to [k]. *)
Ltac with_product artifacts k :=
  let c := eval vm_compute in (audit artifacts) in
  match c with
  | Normal ?p => k p
  end.

(** ** Properties *)

Section Properties.

Context {imports : Imports}.

(** *** String methods *)

Lemma startsWith_spec (p s : string) :
  startsWith s p = true <-> exists v, s = String.append p v.
Proof.
  revert s. induction p as [|c p IH]; intros s; simpl.
  - split; [intros _; exists s; reflexivity | reflexivity].
  - destruct s as [|d s]; simpl.
    + split; [discriminate | intros [v Hv]; discriminate].
    + rewrite andb_true_iff, Ascii.eqb_eq, IH. split.
      * intros [-> [v ->]]. eauto.
      * intros [v Hv]. injection Hv as -> ->. eauto.
Qed.

Lemma includes_spec (s t : string) :
  includes s t = true <-> contains s t.
Proof.
  unfold contains. induction s as [|c s IH].
  - cbn [includes]. rewrite orb_false_r, startsWith_spec. split.
    + intros [v Hv]. exists EmptyString, v. exact Hv.
    + intros (u & v & Huv). destruct u; [|discriminate]. eauto.
  - cbn [includes]. rewrite orb_true_iff, startsWith_spec, IH. split.
    + intros [[v Hv] | (u & v & ->)].
      * exists EmptyString, v. exact Hv.
      * exists (String c u), v. reflexivity.
    + intros (u & v & Huv). destruct u as [|d u].
      * left. eauto.
      * right. simpl in Huv. injection Huv as _ ->. eauto.
Qed.

Lemma includes_false (s t : string) :
  includes s t = false <-> ~ contains s t.
Proof.
  rewrite <- includes_spec. destruct (includes s t); split; congruence.
Qed.

Lemma strict_eq_spec (v : value) (s : string) :
  strict_eq v s = true <-> v = Some s.
Proof.
  destruct v as [t|]; simpl.
  - rewrite String.eqb_eq. split; congruence.
  - split; discriminate.
Qed.

Lemma or_default_Some (v : value) (d s : string) :
  v = Some s -> s <> "" -> or_default v d = s.
Proof. intros -> Hs. destruct s; [contradiction | reflexivity]. Qed.

Lemma or_default_falsy (v : value) (d : string) :
  v = None \/ v = Some "" -> or_default v d = d.
Proof. intros [-> | ->]; reflexivity. Qed.

Lemma or_default_empty (v : value) (s : string) :
  v = Some s -> or_default v "" = s.
Proof. intros ->. destruct s; reflexivity. Qed.

(** *** The array methods *)

Lemma List_filter_sublist {A} (f : A -> bool) (l : list A) :
  List.filter f l `sublist_of` l.
Proof.
  induction l as [|x l IH]; simpl.
  - constructor.
  - destruct (f x); constructor; exact IH.
Qed.

Lemma List_filter_elem_of {A} (f : A -> bool) (l : list A) (x : A) :
  x ∈ List.filter f l <-> x ∈ l /\ f x = true.
Proof. rewrite !list_elem_of_In. apply filter_In. Qed.

Lemma List_filter_twice {A} (f g : A -> bool) (l : list A) :
  List.filter g (List.filter f l) = List.filter (fun x => f x && g x) l.
Proof.
  induction l as [|x l IH]; simpl; [reflexivity|].
  destruct (f x); simpl; [destruct (g x)|]; congruence.
Qed.

Lemma filter_throwing_Normal {A} (f : A -> completion bool) (l k : list A) :
  filter_throwing f l = Normal k ->
  k = List.filter (fun x => match f x with Normal b => b | Throw _ => false end) l.
Proof.
  revert k. induction l as [|x l IH]; simpl; intros k.
  - congruence.
  - destruct (f x) as [b|e]; simpl; [|discriminate].
    destruct (filter_throwing f l) as [rest|e]; simpl; [|discriminate].
    intros [= <-]. rewrite (IH rest eq_refl). reflexivity.
Qed.

Lemma filter_throwing_Throw {A} (f : A -> completion bool) (l : list A) (e : exn) :
  filter_throwing f l = Throw e -> exists x, x ∈ l /\ f x = Throw e.
Proof.
  induction l as [|x l IH]; simpl.
  - discriminate.
  - destruct (f x) as [b|e'] eqn:Hx; simpl.
    + destruct (filter_throwing f l) as [rest|e'']; simpl; [discriminate|].
      intros [= ->]. destruct (IH eq_refl) as (y & Hy & Hfy).
      exists y. split; [by apply list_elem_of_further | exact Hfy].
    + intros [= ->]. exists x. split; [apply list_elem_of_here | exact Hx].
Qed.

(** The second filter: which anchors it keeps does not depend on the
    warnings, and it pushes one message per unparsable href, in order. *)
Lemma filter_stateful_stageB (pageHost : string) (l : list AnchorElement) (w : list string) :
  filter_stateful (stageB pageHost) l w =
  (List.filter (passes_stageB pageHost) l,
   w ++ map warning_for (List.filter href_unparsable l)).
Proof.
  revert w. induction l as [|a l IH]; intros w; simpl.
  - by rewrite app_nil_r.
  - unfold passes_stageB, href_unparsable, stageB at 1 3.
    destruct (new_URL_host (href a)) as [host|e]; simpl; rewrite IH.
    + reflexivity.
    + by rewrite <- app_assoc.
Qed.

Lemma filter_chain_returns (pageHost : string) (l : list AnchorElement)
  (w : list string) (out : list AnchorElement * list string) :
  filter_chain pageHost l w = Normal out ->
  out = (List.filter (keeps pageHost) l, w ++ map warning_for (List.filter warned l)).
Proof.
  unfold filter_chain.
  destruct (filter_throwing stageA l) as [risky|e] eqn:HA; simpl; [|discriminate].
  apply filter_throwing_Normal in HA.
  rewrite filter_stateful_stageB. intros [= <-]. subst risky.
  change (fun x => match stageA x with Normal b => b | Throw _ => false end)
    with passes_stageA.
  rewrite (List_filter_twice passes_stageA (passes_stageB pageHost)).
  rewrite !List_filter_twice. reflexivity.
Qed.

(** *** The stages and their specification *)

Lemma passes_stageA_spec (a : AnchorElement) :
  passes_stageA a = true <-> behavioral_risk a.
Proof.
  unfold passes_stageA, stageA, behavioral_risk.
  destruct (strict_eq (target a) "_blank") eqn:Ht.
  - apply strict_eq_spec in Ht. destruct (rel a) as [r|].
    + rewrite andb_true_iff, !negb_true_iff, !includes_false. split.
      * intros [H1 H2]. split; [exact Ht|]. exists r. auto.
      * intros (_ & r' & [= <-] & H1 & H2). auto.
    + split; [discriminate|]. intros (_ & r & Hr & _). discriminate.
  - split; [discriminate|]. intros [Ht' _].
    apply strict_eq_spec in Ht'. congruence.
Qed.

Lemma href_unparsable_spec (a : AnchorElement) :
  href_unparsable a = true <-> unparsable a.
Proof.
  unfold href_unparsable, unparsable, new_URL_host.
  destruct (URL_host (ToString (href a))); split; congruence.
Qed.

Lemma passes_stageB_spec (pageHost : string) (a : AnchorElement) :
  passes_stageB pageHost a = true <-> cross_origin_or_unparsable pageHost a.
Proof.
  unfold passes_stageB, stageB, cross_origin_or_unparsable, unparsable, new_URL_host.
  destruct (URL_host (ToString (href a))) as [host|]; simpl.
  - rewrite negb_true_iff, String.eqb_neq. split.
    + intros Hne. right. exists host. auto.
    + intros [H | (host' & [= <-] & Hne)]; [discriminate | exact Hne].
  - split; auto.
Qed.

Lemma stageC_spec (a : AnchorElement) :
  stageC a = true <-> http_or_no_href a.
Proof.
  unfold stageC, http_or_no_href.
  destruct (href a) as [[|c s]|]; cbn [truthy negb orb].
  - split; auto.
  - split.
    + intros H. right. right. eauto.
    + intros [H | [H | (h & [= <-] & H)]]; [discriminate | discriminate | exact H].
  - split; auto.
Qed.

Lemma keeps_spec (pageHost : string) (a : AnchorElement) :
  keeps pageHost a = true <->
  behavioral_risk a /\ cross_origin_or_unparsable pageHost a /\ http_or_no_href a.
Proof.
  unfold keeps.
  rewrite !andb_true_iff, passes_stageA_spec, passes_stageB_spec, stageC_spec.
  tauto.
Qed.

Lemma warned_spec (a : AnchorElement) :
  warned a = true <-> behavioral_risk a /\ unparsable a.
Proof.
  unfold warned. by rewrite andb_true_iff, passes_stageA_spec, href_unparsable_spec.
Qed.

(** *** What a returning invocation computed *)

Lemma audit_returns (artifacts : Artifacts) (r : Product) :
  audit artifacts = Normal r ->
  exists pageHost,
    URL_host (finalUrl artifacts) = Some pageHost /\
    failing_elements artifacts =
      Normal (List.filter (keeps pageHost) (AnchorElements artifacts)) /\
    failingAnchors r =
      map summary (List.filter (keeps pageHost) (AnchorElements artifacts)) /\
    warnings r = map warning_for (List.filter warned (AnchorElements artifacts)) /\
    score r = Number (Nat.eqb (length (failingAnchors r)) 0).
Proof.
  unfold audit, failing_elements, new_URL_host. cbn [ToString].
  destruct (URL_host (finalUrl artifacts)) as [pageHost|]; [|discriminate].
  cbn [bind].
  destruct (filter_chain pageHost (AnchorElements artifacts) []) as [out|e] eqn:Hc;
    [|discriminate].
  apply filter_chain_returns in Hc. subst out. cbn [bind fst snd app].
  intros [= <-]. exists pageHost. auto.
Qed.

Lemma failing_elements_returns (artifacts : Artifacts) (kept : list AnchorElement) :
  failing_elements artifacts = Normal kept ->
  exists pageHost,
    URL_host (finalUrl artifacts) = Some pageHost /\
    kept = List.filter (keeps pageHost) (AnchorElements artifacts).
Proof.
  unfold failing_elements, new_URL_host. cbn [ToString].
  destruct (URL_host (finalUrl artifacts)) as [pageHost|]; [|discriminate].
  cbn [bind].
  destruct (filter_chain pageHost (AnchorElements artifacts) []) as [out|e] eqn:Hc;
    [|discriminate].
  apply filter_chain_returns in Hc. subst out. cbn [bind fst].
  intros [= <-]. eauto.
Qed.

Lemma appears_inv (artifacts : Artifacts) (a : AnchorElement) :
  appears_in_failingAnchors artifacts a ->
  exists pageHost,
    URL_host (finalUrl artifacts) = Some pageHost /\
    a ∈ AnchorElements artifacts /\ keeps pageHost a = true.
Proof.
  intros (kept & Hk & Ha).
  destruct (failing_elements_returns _ _ Hk) as (pageHost & Hp & ->).
  apply List_filter_elem_of in Ha. eauto.
Qed.

Lemma appears_when_returns (artifacts : Artifacts) (r : Product) (pageHost : string)
  (a : AnchorElement) :
  audit artifacts = Normal r ->
  URL_host (finalUrl artifacts) = Some pageHost ->
  appears_in_failingAnchors artifacts a <->
  a ∈ AnchorElements artifacts /\ keeps pageHost a = true.
Proof.
  intros Hr Hp. split.
  - intros (pageHost' & Hp' & Ha & Hk)%appears_inv.
    assert (pageHost' = pageHost) as -> by congruence. auto.
  - intros [Ha Hk]. destruct (audit_returns _ _ Hr) as (pageHost' & Hp' & Hf & _).
    assert (pageHost' = pageHost) as -> by congruence.
    exists (List.filter (keeps pageHost) (AnchorElements artifacts)).
    split; [exact Hf|]. by apply List_filter_elem_of.
Qed.

(** *** Unparsable hrefs *)


(** *** Anchors that are never reported *)

Lemma or_default_empty_inv (v : value) (s : string) :
  or_default v "" = s -> s <> "" -> v = Some s.
Proof.
  destruct v as [[|c t]|]; simpl; intros <- Hs; try contradiction. reflexivity.
Qed.

(** C2: an anchor whose target is not [_blank], or whose rel contains
    [noopener] or [noreferrer], is not among the anchors of
    [failingAnchors], whatever its other attributes; no row of
    [failingAnchors] is even equal to the row it would give. *)
Theorem C2_safe_anchor_not_reported (artifacts : Artifacts) (a : AnchorElement) :
  target a <> Some "_blank" \/
  (exists r, rel a = Some r /\ (contains r "noopener" \/ contains r "noreferrer")) ->
  ~ appears_in_failingAnchors artifacts a /\
  forall p, audit artifacts = Normal p -> summary a ∉ failingAnchors p.
Proof.
  intros Hsafe.
  assert (Hrisk : ~ behavioral_risk a).
  { intros (Ht & r & Hr & Hno & Hnr).
    destruct Hsafe as [Hsafe | (r' & Hr' & Hc)]; [contradiction|].
    assert (r' = r) as -> by congruence. tauto. }
  split.
  - intros (pageHost & _ & _ & Hk%keeps_spec)%appears_inv. tauto.
  - intros p Hp Hin.
    destruct (audit_returns _ _ Hp) as (pageHost & _ & _ & Hf & _).
    rewrite Hf, list_elem_of_In, in_map_iff in Hin.
    destruct Hin as (k & Hsum & Hk).
    apply list_elem_of_In, List_filter_elem_of in Hk as [_ Hk].
    apply keeps_spec in Hk as [(Ht & rk & Hrk & Hno & Hnr) _].
    apply (f_equal item_target) in Hsum as Htarget.
    apply (f_equal item_rel) in Hsum as Hrel. simpl in Htarget, Hrel.
    rewrite Ht in Htarget. rewrite (or_default_empty _ _ Hrk) in Hrel.
    symmetry in Htarget. apply or_default_empty_inv in Htarget; [|discriminate].
    destruct Hsafe as [Hsafe | (r & Hr & Hc)]; [contradiction|].
    rewrite (or_default_empty _ _ Hr) in Hrel. subst rk. tauto.
Qed.

(** C3: an anchor whose href parses to the host of the page's [finalUrl]
    is not among the anchors of [failingAnchors]. *)
Theorem C3_same_host_not_reported (artifacts : Artifacts) (a : AnchorElement)
  (host : string) :
  URL_host (finalUrl artifacts) = Some host ->
  URL_host (ToString (href a)) = Some host ->
  ~ appears_in_failingAnchors artifacts a.
Proof.
  intros Hpage Ha (pageHost & Hp & _ & Hk%keeps_spec)%appears_inv.
  assert (pageHost = host) as -> by congruence.
  destruct Hk as (_ & [Hu | (host' & Hh & Hne)] & _).
  - unfold unparsable in Hu. congruence.
  - congruence.
Qed.

(** C4: an anchor with a non-empty href that does not start with [http]
    once lowered is not among the anchors of [failingAnchors], whatever the
    other filters say of it. *)
Theorem C4_other_scheme_not_reported (artifacts : Artifacts) (a : AnchorElement)
  (h : string) :
  href a = Some h -> h <> "" ->
  startsWith (toLowerCase h) "http" = false ->
  ~ appears_in_failingAnchors artifacts a.
Proof.
  intros Hh Hne Hhttp (pageHost & _ & _ & Hk%keeps_spec)%appears_inv.
  destruct Hk as (_ & _ & [HC | [HC | (h' & HC & Hs)]]); congruence.
Qed.

(** *** The score *)

(** C5: the score of a returning audit is 1 exactly when [failingAnchors]
    is empty, and 0 exactly when it is not. *)
Theorem C5_score_binary (artifacts : Artifacts) (r : Product) :
  audit artifacts = Normal r ->
  (score r = 1%Z <-> failingAnchors r = []) /\
  (score r = 0%Z <-> failingAnchors r <> []).
Proof.
  intros Hr. destruct (audit_returns _ _ Hr) as (_ & _ & _ & _ & _ & ->).
  destruct (failingAnchors r) as [|row rows]; simpl; split; split;
    try congruence; try discriminate.
Qed.

(** *** The rows *)

Lemma or_when_absent_default (v : value) :
  or_when_absent v "" (or_default v "").
Proof.
  split.
  - intros x Hx. by apply or_default_empty.
  - intros ->. reflexivity.
Qed.

Lemma summary_summarizes (a : AnchorElement) : summarizes a (summary a).
Proof.
  unfold summarizes, summary. cbn [item_href item_target item_rel item_outerHTML].
  repeat split; try apply or_when_absent_default.
  - intros h Hh Hne. by apply or_default_Some.
  - apply or_default_falsy.
Qed.

(** C6: the rows of [failingAnchors] are the summaries of the anchors that
    survive the three filters, in order; each has the anchor's href, or
    [Unknown] when that is absent or empty, and the anchor's target, rel
    and outerHTML, or the empty string when absent.  An anchor with target
    [_blank], an empty rel and no href is among them, with href [Unknown],
    given that the URL constructor rejects an absent argument. *)
Theorem C6_summary_rows (artifacts : Artifacts) (r : Product) :
  audit artifacts = Normal r ->
  URL_host (ToString None) = None ->
  exists kept,
    failing_elements artifacts = Normal kept /\
    failingAnchors r = map summary kept /\
    (forall a, a ∈ kept -> summary a ∈ failingAnchors r /\ summarizes a (summary a)) /\
    (forall a,
       a ∈ AnchorElements artifacts ->
       target a = Some "_blank" -> rel a = Some "" -> href a = None ->
       a ∈ kept /\ item_href (summary a) = "Unknown").
Proof.
  intros Hr Hundef.
  destruct (audit_returns _ _ Hr) as (pageHost & Hp & Hf & Hrows & _).
  exists (List.filter (keeps pageHost) (AnchorElements artifacts)).
  split; [exact Hf|]. split; [exact Hrows|]. split.
  - intros a Ha. split; [|apply summary_summarizes].
    rewrite Hrows, list_elem_of_In. apply in_map. by apply list_elem_of_In.
  - intros a Ha Ht Hrel Hh. split.
    + apply List_filter_elem_of. split; [exact Ha|]. apply keeps_spec.
      repeat split.
      * exact Ht.
      * exists "". repeat split; [exact Hrel | |]; by apply includes_false.
      * left. unfold unparsable. by rewrite Hh.
      * left. exact Hh.
    + unfold summary. cbn [item_href]. by rewrite Hh.
Qed.

(** *** Exceptions *)

Lemma stageA_throws (a : AnchorElement) (e : exn) :
  stageA a = Throw e -> target a = Some "_blank" /\ rel a = None.
Proof.
  unfold stageA. destruct (strict_eq (target a) "_blank") eqn:Ht; [|discriminate].
  apply strict_eq_spec in Ht. destruct (rel a); [discriminate | auto].
Qed.

(** The exceptions that leave [audit]: the page URL does not parse, or
    the first filter reads [includes] off an absent rel. *)
Lemma audit_throws (artifacts : Artifacts) (e : exn) :
  audit artifacts = Throw e ->
  URL_host (finalUrl artifacts) = None \/
  exists a, a ∈ AnchorElements artifacts /\ target a = Some "_blank" /\ rel a = None.
Proof.
  unfold audit, new_URL_host. cbn [ToString].
  destruct (URL_host (finalUrl artifacts)) as [pageHost|]; [|auto].
  cbn [bind]. unfold filter_chain.
  destruct (filter_throwing stageA (AnchorElements artifacts)) as [risky|e'] eqn:HA.
  - cbn [bind]. destruct (filter_stateful _ _ _). discriminate.
  - intros _. right. apply filter_throwing_Throw in HA as (a & Ha & Hthrow).
    exists a. split; [exact Ha|]. by apply stageA_throws in Hthrow.
Qed.

(** C7: on an input of the declared type whose [finalUrl] parses, [audit]
    raises no exception: an unparsable href is caught where it occurs (the
    anchor is kept by the second filter and its warning is recorded) and
    the other anchors are filtered as usual.  On an input of the declared
    type the only exception that leaves [audit] is the one raised for the
    page URL. *)
Theorem C7_no_exception (artifacts : Artifacts) :
  well_typed artifacts ->
  (forall pageHost,
     URL_host (finalUrl artifacts) = Some pageHost ->
     exists r,
       audit artifacts = Normal r /\
       failingAnchors r =
         map summary (List.filter (keeps pageHost) (AnchorElements artifacts)) /\
       forall a, a ∈ AnchorElements artifacts -> behavioral_risk a -> unparsable a ->
         passes_stageB pageHost a = true /\ warning_for a ∈ warnings r) /\
  (forall e, audit artifacts = Throw e -> URL_host (finalUrl artifacts) = None).
Proof.
  intros Htyped.
  assert (Hthrow : forall e, audit artifacts = Throw e ->
                     URL_host (finalUrl artifacts) = None).
  { intros e He. destruct (audit_throws _ _ He) as [Hnone | (a & Ha & _ & Hnorel)].
    - exact Hnone.
    - by destruct (Htyped a Ha). }
  split; [|exact Hthrow]. intros pageHost Hp.
  destruct (audit artifacts) as [r|e] eqn:Hr.
  - exists r. split; [reflexivity|].
    destruct (audit_returns _ _ Hr) as (pageHost' & Hp' & _ & Hrows & Hw & _).
    assert (pageHost' = pageHost) as -> by congruence.
    split; [exact Hrows|]. intros a Ha HA Hu. split.
    + apply passes_stageB_spec. by left.
    + rewrite Hw, list_elem_of_In. apply in_map.
      apply list_elem_of_In, List_filter_elem_of. split; [exact Ha|].
      by apply warned_spec.
  - rewrite (Hthrow e eq_refl) in Hp. discriminate.
Qed.

(** *** Order and membership *)

(** C8: the rows of [failingAnchors] are the summaries of a subsequence of
    the input anchors, each of which satisfies the three filter predicates. *)
Theorem C8_stable_filter (artifacts : Artifacts) (r : Product) :
  audit artifacts = Normal r ->
  exists pageHost kept,
    URL_host (finalUrl artifacts) = Some pageHost /\
    failing_elements artifacts = Normal kept /\
    failingAnchors r = map summary kept /\
    kept `sublist_of` AnchorElements artifacts /\
    Forall (fun a =>
              a ∈ AnchorElements artifacts /\
              behavioral_risk a /\
              cross_origin_or_unparsable pageHost a /\
              http_or_no_href a) kept.
Proof.
  intros Hr. destruct (audit_returns _ _ Hr) as (pageHost & Hp & Hf & Hrows & _).
  exists pageHost, (List.filter (keeps pageHost) (AnchorElements artifacts)).
  repeat split; auto using List_filter_sublist.
  apply Forall_forall. intros a [Ha Hk]%List_filter_elem_of.
  apply keeps_spec in Hk. auto.
Qed.

(** *** A warning without a failure *)

(** C10: on a page whose only anchor has target [_blank], a rel naming
    neither [noopener] nor [noreferrer] and a non-empty href that neither
    parses nor starts with [http], the audit returns that anchor's warning,
    an empty [failingAnchors] and the score 1. *)
Theorem C10_warning_without_failure (pageUrl pageHost : string) (a : AnchorElement)
  (h : string) :
  URL_host pageUrl = Some pageHost ->
  behavioral_risk a ->
  href a = Some h -> h <> "" ->
  startsWith (toLowerCase h) "http" = false ->
  URL_host h = None ->
  exists r,
    audit {| finalUrl := pageUrl; AnchorElements := [a] |} = Normal r /\
    warnings r = [warning_for a] /\
    failingAnchors r = [] /\
    score r = 1%Z.
Proof.
  intros Hp HA Hh Hne Hhttp Hu.
  assert (Hw : warned a = true).
  { apply warned_spec. split; [exact HA|]. unfold unparsable. by rewrite Hh. }
  assert (Hk : forall host, keeps host a = false).
  { intros host. destruct (keeps host a) eqn:Hk; [|reflexivity].
    apply keeps_spec in Hk as (_ & _ & [HC | [HC | (h' & HC & Hs)]]); congruence. }
  destruct (audit _) as [r|e] eqn:Hr.
  - exists r. split; [reflexivity|].
    destruct (audit_returns _ _ Hr) as (host & _ & _ & Hrows & Hws & Hscore).
    cbn [AnchorElements List.filter] in Hrows, Hws.
    rewrite Hk in Hrows. rewrite Hw in Hws. rewrite Hscore, Hrows. auto.
  - exfalso. destruct (audit_throws _ _ Hr) as [Hnone | (a' & Ha' & _ & Hnorel)].
    + cbn [finalUrl] in Hnone. congruence.
    + cbn [AnchorElements] in Ha'. apply list_elem_of_singleton in Ha' as ->.
      destruct HA as (_ & r & Hrel & _). congruence.
Qed.

(** *** When the audit returns *)

Lemma filter_throwing_Normal_all {A} (f : A -> completion bool) (l k : list A) (x : A) :
  filter_throwing f l = Normal k -> x ∈ l -> exists b, f x = Normal b.
Proof.
  revert k. induction l as [|y l IH]; intros k Hk Hx.
  - by apply not_elem_of_nil in Hx.
  - cbn [filter_throwing] in Hk.
    destruct (f y) as [b|e] eqn:Hy; [|discriminate].
    destruct (filter_throwing f l) as [rest|e]; [|discriminate].
    apply elem_of_cons in Hx as [-> | Hx]; eauto.
Qed.

Lemma filter_throwing_app {A} (f : A -> completion bool) (l1 l2 : list A) :
  filter_throwing f (l1 ++ l2) =
  (let* k1 := filter_throwing f l1 in
   let* k2 := filter_throwing f l2 in
   Normal (k1 ++ k2)).
Proof.
  induction l1 as [|x l1 IH]; cbn [app filter_throwing bind].
  - by destruct (filter_throwing f l2).
  - destruct (f x) as [b|e]; cbn [bind]; [|reflexivity].
    rewrite IH. destruct (filter_throwing f l1) as [k1|e]; cbn [bind]; [|reflexivity].
    destruct (filter_throwing f l2) as [k2|e]; cbn [bind]; [|reflexivity].
    by destruct b.
Qed.

Lemma audit_normal_inv (artifacts : Artifacts) (r : Product) :
  audit artifacts = Normal r ->
  (exists pageHost, URL_host (finalUrl artifacts) = Some pageHost) /\
  forall a, a ∈ AnchorElements artifacts -> target a = Some "_blank" -> rel a <> None.
Proof.
  unfold audit, new_URL_host. cbn [ToString].
  destruct (URL_host (finalUrl artifacts)) as [pageHost|]; [|discriminate].
  cbn [bind]. unfold filter_chain.
  destruct (filter_throwing stageA (AnchorElements artifacts)) as [risky|e] eqn:HA;
    [|discriminate].
  intros _. split; [eauto|]. intros a Ha Ht Hrel.
  destruct (filter_throwing_Normal_all _ _ _ _ HA Ha) as [b Hb].
  unfold stageA in Hb. rewrite Ht, Hrel in Hb. discriminate.
Qed.

Lemma audit_normal_intro (artifacts : Artifacts) (pageHost : string) :
  URL_host (finalUrl artifacts) = Some pageHost ->
  (forall a, a ∈ AnchorElements artifacts -> target a = Some "_blank" -> rel a <> None) ->
  exists r, audit artifacts = Normal r.
Proof.
  intros Hp Hrel. destruct (audit artifacts) as [r|e] eqn:Hr; [eauto|].
  exfalso. destruct (audit_throws _ _ Hr) as [Hnone | (a & Ha & Ht & Hnorel)].
  - congruence.
  - by apply (Hrel a Ha Ht).
Qed.

Lemma score_one_iff (artifacts : Artifacts) (r : Product) :
  audit artifacts = Normal r -> score r = 1%Z <-> failingAnchors r = [].
Proof.
  intros Hr. destruct (audit_returns _ _ Hr) as (_ & _ & _ & _ & _ & ->).
  destruct (failingAnchors r); simpl; split; congruence.
Qed.

Lemma List_filter_nil {A} (f : A -> bool) (l : list A) :
  List.filter f l = [] <-> forall x, x ∈ l -> f x = false.
Proof.
  induction l as [|y l IH]; simpl.
  - split; [intros _ x Hx; by apply not_elem_of_nil in Hx | reflexivity].
  - destruct (f y) eqn:Hy.
    + split; [discriminate|]. intros H. specialize (H y (list_elem_of_here _ _)). congruence.
    + rewrite IH. split.
      * intros H x [-> | Hx]%elem_of_cons; auto.
      * intros H x Hx. apply H. by apply list_elem_of_further.
Qed.

Lemma List_filter_idem {A} (f : A -> bool) (l : list A) :
  List.filter f (List.filter f l) = List.filter f l.
Proof.
  rewrite List_filter_twice. apply List.filter_ext. intros x. by destruct (f x).
Qed.

Lemma List_filter_Permutation {A} (f : A -> bool) (l l' : list A) :
  l ≡ₚ l' -> List.filter f l ≡ₚ List.filter f l'.
Proof.
  induction 1 as [|x l l' _ IH|x y l|l l' l'' _ IH1 _ IH2]; simpl.
  - reflexivity.
  - destruct (f x); [by constructor | exact IH].
  - destruct (f x), (f y); try reflexivity. apply perm_swap.
  - by etransitivity.
Qed.

Lemma lower_char_idem (c : ascii) : lower_char (lower_char c) = lower_char c.
Proof. destruct c as [[] [] [] [] [] [] [] []]; reflexivity. Qed.

Lemma toLowerCase_idem (s : string) : toLowerCase (toLowerCase s) = toLowerCase s.
Proof.
  induction s as [|c s IH]; simpl; [reflexivity|]. by rewrite lower_char_idem, IH.
Qed.

(** X1: whatever the input, each row of [failingAnchors] has target
    [_blank], a rel that contains neither [noopener] nor [noreferrer], and
    an href that is [Unknown] or starts with [http] once lowered. *)
Theorem X1_rows_are_unsafe (artifacts : Artifacts) (r : Product) (row : AnchorSummary) :
  audit artifacts = Normal r ->
  row ∈ failingAnchors r ->
  item_target row = "_blank" /\
  ~ contains (item_rel row) "noopener" /\
  ~ contains (item_rel row) "noreferrer" /\
  (item_href row = "Unknown" \/ startsWith (toLowerCase (item_href row)) "http" = true).
Proof.
  intros Hr Hrow.
  destruct (audit_returns _ _ Hr) as (pageHost & _ & _ & Hrows & _).
  rewrite Hrows, list_elem_of_In, in_map_iff in Hrow.
  destruct Hrow as (a & <- & Ha).
  apply list_elem_of_In, List_filter_elem_of in Ha as [_ Hk].
  apply keeps_spec in Hk as ((Ht & rk & Hrk & Hno & Hnr) & _ & HC).
  unfold summary. cbn [item_target item_rel item_href].
  rewrite Ht, (or_default_empty _ _ Hrk). repeat split; auto.
  destruct HC as [Hh | [Hh | (h & Hh & Hs)]].
  - left. by rewrite Hh.
  - left. by rewrite Hh.
  - right. rewrite Hh. destruct h as [|c h]; [discriminate | exact Hs].
Qed.

(** X2: [audit] returns exactly when the page URL parses and every anchor
    whose target is [_blank] has a rel string; one anchor with target
    [_blank] and no rel makes the whole audit throw, whatever the others. *)
Theorem X2_returns_exactly_when (artifacts : Artifacts) :
  (exists r, audit artifacts = Normal r) <->
  (exists pageHost, URL_host (finalUrl artifacts) = Some pageHost) /\
  (forall a, a ∈ AnchorElements artifacts -> target a = Some "_blank" -> rel a <> None).
Proof.
  split.
  - intros [r Hr]. by apply (audit_normal_inv _ r).
  - intros [[pageHost Hp] Hrel]. by apply (audit_normal_intro _ pageHost).
Qed.

(** X3: on an empty list of anchors, and a page URL that parses, the audit
    passes with no row and no warning. *)
Theorem X3_no_anchor_passes (url pageHost : string) :
  URL_host url = Some pageHost ->
  exists r,
    audit {| finalUrl := url; AnchorElements := [] |} = Normal r /\
    failingAnchors r = [] /\ warnings r = [] /\ score r = 1%Z.
Proof.
  intros Hp. unfold audit, new_URL_host. cbn [ToString finalUrl]. rewrite Hp.
  eexists. split; [reflexivity|]. repeat split.
Qed.

(** *** Composition *)

(** X4: the audit of two anchor lists put end to end: when the audit
    returns on each, it returns on their concatenation, with the rows of
    the first followed by the rows of the second, the warnings likewise,
    and it passes exactly when both pass. *)
Theorem X4_audit_of_concatenation (url : string) (l1 l2 : list AnchorElement)
  (r1 r2 : Product) :
  audit {| finalUrl := url; AnchorElements := l1 |} = Normal r1 ->
  audit {| finalUrl := url; AnchorElements := l2 |} = Normal r2 ->
  exists r,
    audit {| finalUrl := url; AnchorElements := l1 ++ l2 |} = Normal r /\
    failingAnchors r = failingAnchors r1 ++ failingAnchors r2 /\
    warnings r = warnings r1 ++ warnings r2 /\
    (score r = 1%Z <-> score r1 = 1%Z /\ score r2 = 1%Z).
Proof.
  intros H1 H2.
  destruct (audit_normal_inv _ _ H1) as [[pageHost Hp] Hrel1].
  destruct (audit_normal_inv _ _ H2) as [_ Hrel2].
  destruct (audit_normal_intro {| finalUrl := url; AnchorElements := l1 ++ l2 |} pageHost)
    as [r Hr]; [exact Hp | |].
  { cbn [AnchorElements] in *. intros a [Ha | Ha]%elem_of_app; auto. }
  exists r. split; [exact Hr|].
  destruct (audit_returns _ _ Hr) as (h & Hh & _ & Hrows & Hw & _).
  destruct (audit_returns _ _ H1) as (h1 & Hh1 & _ & Hrows1 & Hw1 & _).
  destruct (audit_returns _ _ H2) as (h2 & Hh2 & _ & Hrows2 & Hw2 & _).
  cbn [finalUrl AnchorElements] in *.
  assert (h1 = h) as -> by congruence. assert (h2 = h) as -> by congruence.
  assert (Hcat : failingAnchors r = failingAnchors r1 ++ failingAnchors r2).
  { by rewrite Hrows, Hrows1, Hrows2, List.filter_app, List.map_app. }
  split; [exact Hcat|]. split.
  - by rewrite Hw, Hw1, Hw2, List.filter_app, List.map_app.
  - rewrite (score_one_iff _ _ Hr), (score_one_iff _ _ H1), (score_one_iff _ _ H2), Hcat.
    apply app_nil.
Qed.

(** X5: an anchor that fails the first filter (a target other than
    [_blank], or a rel that contains [noopener] or [noreferrer]) has no
    effect at all: the audit gives the same product, or throws the same
    exception, with and without it, whatever its href. *)
Theorem X5_safe_anchor_is_ignored (url : string) (l1 l2 : list AnchorElement)
  (a : AnchorElement) :
  target a <> Some "_blank" \/
  (exists r, rel a = Some r /\ (contains r "noopener" \/ contains r "noreferrer")) ->
  audit {| finalUrl := url; AnchorElements := l1 ++ a :: l2 |} =
  audit {| finalUrl := url; AnchorElements := l1 ++ l2 |}.
Proof.
  intros Hsafe.
  assert (HA : stageA a = Normal false).
  { unfold stageA. destruct (strict_eq (target a) "_blank") eqn:Ht; [|reflexivity].
    apply strict_eq_spec in Ht.
    destruct Hsafe as [Hsafe | (r & -> & Hc)]; [contradiction|].
    f_equal. apply andb_false_iff.
    destruct Hc as [Hc | Hc]; [left | right];
      apply negb_false_iff; by apply includes_spec. }
  assert (Hchain : filter_throwing stageA (l1 ++ a :: l2) = filter_throwing stageA (l1 ++ l2)).
  { rewrite !filter_throwing_app. cbn [filter_throwing]. rewrite HA. cbn [bind].
    destruct (filter_throwing stageA l1) as [k1|e]; cbn [bind]; [|reflexivity].
    by destruct (filter_throwing stageA l2). }
  unfold audit, filter_chain. cbn [finalUrl AnchorElements]. by rewrite Hchain.
Qed.

(** X6: the audit run again on the anchors it reported reports them all
    again, row for row, and warns about nothing it did not warn about
    before. *)
Theorem X6_reported_anchors_stay_reported (artifacts : Artifacts) (r : Product)
  (kept : list AnchorElement) :
  audit artifacts = Normal r ->
  failing_elements artifacts = Normal kept ->
  exists r',
    audit {| finalUrl := finalUrl artifacts; AnchorElements := kept |} = Normal r' /\
    failingAnchors r' = failingAnchors r /\
    forall w, w ∈ warnings r' -> w ∈ warnings r.
Proof.
  intros Hr Hkept.
  destruct (audit_returns _ _ Hr) as (h & Hh & Hf & Hrows & Hw & _).
  assert (kept = List.filter (keeps h) (AnchorElements artifacts)) as -> by congruence.
  destruct (audit_normal_intro
              {| finalUrl := finalUrl artifacts;
                 AnchorElements := List.filter (keeps h) (AnchorElements artifacts) |} h)
    as [r' Hr']; [exact Hh | |].
  { cbn [AnchorElements]. intros a [_ Hk]%List_filter_elem_of _.
    apply keeps_spec in Hk as ((_ & rk & -> & _) & _). discriminate. }
  exists r'. split; [exact Hr'|].
  destruct (audit_returns _ _ Hr') as (h' & Hh' & _ & Hrows' & Hw' & _).
  cbn [finalUrl AnchorElements] in *. assert (h' = h) as -> by congruence.
  split.
  - by rewrite Hrows', Hrows, List_filter_idem.
  - intros w. rewrite Hw', Hw, !list_elem_of_In, !in_map_iff.
    intros (a & <- & Ha). exists a. split; [reflexivity|].
    apply list_elem_of_In, List_filter_elem_of in Ha as [Ha Hwa].
    apply List_filter_elem_of in Ha as [Ha _].
    apply list_elem_of_In, List_filter_elem_of. auto.
Qed.

(** X7: the order of the anchors does not matter for the verdict: on a
    permutation of the anchors the audit returns the same rows and the same
    warnings up to order, and the same score. *)
Theorem X7_order_of_anchors (url : string) (l l' : list AnchorElement) (r : Product) :
  l ≡ₚ l' ->
  audit {| finalUrl := url; AnchorElements := l |} = Normal r ->
  exists r',
    audit {| finalUrl := url; AnchorElements := l' |} = Normal r' /\
    failingAnchors r' ≡ₚ failingAnchors r /\
    warnings r' ≡ₚ warnings r /\
    score r' = score r.
Proof.
  intros Hperm Hr.
  destruct (audit_normal_inv _ _ Hr) as [[pageHost Hp] Hrel].
  destruct (audit_normal_intro {| finalUrl := url; AnchorElements := l' |} pageHost)
    as [r' Hr']; [exact Hp | |].
  { cbn [AnchorElements] in *. intros a Ha. apply Hrel. by rewrite Hperm. }
  exists r'. split; [exact Hr'|].
  destruct (audit_returns _ _ Hr) as (h & Hh & _ & Hrows & Hw & Hs).
  destruct (audit_returns _ _ Hr') as (h' & Hh' & _ & Hrows' & Hw' & Hs').
  cbn [finalUrl AnchorElements] in *. assert (h' = h) as -> by congruence.
  assert (Hp' : failingAnchors r' ≡ₚ failingAnchors r).
  { rewrite Hrows', Hrows. apply Permutation_map, List_filter_Permutation.
    by symmetry. }
  split; [exact Hp'|]. split.
  - rewrite Hw', Hw. apply Permutation_map, List_filter_Permutation. by symmetry.
  - rewrite Hs', Hs. by rewrite (Permutation_length Hp').
Qed.

(** *** Completeness and bounds *)

(** X8: no false negative: an input anchor that satisfies the three filter
    predicates is among the anchors of [failingAnchors], and its summary is
    one of the rows. *)
Theorem X8_unsafe_anchor_is_reported (artifacts : Artifacts) (r : Product)
  (pageHost : string) (a : AnchorElement) :
  audit artifacts = Normal r ->
  URL_host (finalUrl artifacts) = Some pageHost ->
  a ∈ AnchorElements artifacts ->
  behavioral_risk a -> cross_origin_or_unparsable pageHost a -> http_or_no_href a ->
  appears_in_failingAnchors artifacts a /\ summary a ∈ failingAnchors r.
Proof.
  intros Hr Hp Ha HA HB HC.
  assert (Hk : keeps pageHost a = true) by (apply keeps_spec; auto).
  split.
  - by apply (appears_when_returns _ _ _ _ Hr Hp).
  - destruct (audit_returns _ _ Hr) as (h & Hh & _ & Hrows & _).
    assert (h = pageHost) as -> by congruence.
    rewrite Hrows, list_elem_of_In. apply in_map.
    by apply list_elem_of_In, List_filter_elem_of.
Qed.

(** X9: the audit passes exactly when no input anchor satisfies the three
    filter predicates together. *)
Theorem X9_pass_iff_no_unsafe_anchor (artifacts : Artifacts) (r : Product)
  (pageHost : string) :
  audit artifacts = Normal r ->
  URL_host (finalUrl artifacts) = Some pageHost ->
  score r = 1%Z <->
  forall a, a ∈ AnchorElements artifacts ->
    ~ (behavioral_risk a /\ cross_origin_or_unparsable pageHost a /\ http_or_no_href a).
Proof.
  intros Hr Hp. rewrite (score_one_iff _ _ Hr).
  destruct (audit_returns _ _ Hr) as (h & Hh & _ & -> & _).
  assert (h = pageHost) as -> by congruence.
  assert (Hnil : forall k : list AnchorElement, map summary k = [] <-> k = [])
    by (intros [|x k]; simpl; split; congruence).
  rewrite Hnil, List_filter_nil. split.
  - intros H a Ha Hk%keeps_spec. rewrite (H a Ha) in Hk. discriminate.
  - intros H a Ha. destruct (keeps pageHost a) eqn:Hk; [|reflexivity].
    apply keeps_spec in Hk. by destruct (H a Ha).
Qed.

(** X10: there are never more rows than input anchors, nor more warnings;
    more precisely, neither the rows nor the warnings outnumber the anchors
    that pass the first filter. *)
Theorem X10_rows_and_warnings_bounded (artifacts : Artifacts) (r : Product) :
  audit artifacts = Normal r ->
  length (failingAnchors r) <= length (AnchorElements artifacts) /\
  length (warnings r) <= length (AnchorElements artifacts) /\
  length (warnings r) <= length (List.filter passes_stageA (AnchorElements artifacts)) /\
  length (failingAnchors r) <= length (List.filter passes_stageA (AnchorElements artifacts)).
Proof.
  intros Hr. destruct (audit_returns _ _ Hr) as (h & _ & _ & -> & -> & _).
  rewrite !length_map. repeat split.
  - apply List.filter_length_le.
  - apply List.filter_length_le.
  - unfold warned. rewrite <- List_filter_twice. apply List.filter_length_le.
  - unfold keeps.
    rewrite <- (List_filter_twice (fun a => passes_stageA a && passes_stageB h a) stageC).
    rewrite <- (List_filter_twice passes_stageA (passes_stageB h)).
    etransitivity; apply List.filter_length_le.
Qed.

(** X11: the scheme test of the third filter ignores case: an anchor passes
    it exactly when the anchor with the lowered href does. *)
Theorem X11_scheme_test_ignores_case (a b : AnchorElement) :
  href b = option_map toLowerCase (href a) ->
  stageC b = stageC a.
Proof.
  intros Hb. unfold stageC. rewrite Hb.
  destruct (href a) as [[|c h]|]; cbn [option_map toLowerCase truthy negb orb];
    try reflexivity.
  by rewrite lower_char_idem, toLowerCase_idem.
Qed.

End Properties.

(** ** The audit on the sample pages *)

Import Samples.
#[local] Existing Instance Model.imports.

Lemma in_page_1 (a : AnchorElement) (l : list AnchorElement) : a ∈ a :: l.
Proof. apply list_elem_of_here. Defined.

Lemma in_page_2 (a b : AnchorElement) (l : list AnchorElement) : a ∈ b :: a :: l.
Proof. apply list_elem_of_further, list_elem_of_here. Defined.

Lemma empty_rel_is_risky (a : AnchorElement) :
  target a = Some "_blank" -> rel a = Some "" -> behavioral_risk a.
Proof.
  intros Ht Hr. split; [exact Ht|]. exists "".
  repeat split; [exact Hr | |]; by apply includes_false.
Qed.



Lemma C2_witness :
  ~ appears_in_failingAnchors (page [external_link; noopener_link]) noopener_link.
Proof.
  apply (C2_safe_anchor_not_reported (imports := Model.imports) (page [external_link; noopener_link]) noopener_link).
  right. exists "noopener". split; [reflexivity|]. left.
  exists "", "". reflexivity.
Defined.

Lemma C3_witness :
  ~ appears_in_failingAnchors (page [external_link; same_host_link]) same_host_link.
Proof.
  apply (C3_same_host_not_reported (imports := Model.imports) (page [external_link; same_host_link])
           same_host_link "a.com"); reflexivity.
Defined.

Lemma C4_witness :
  ~ appears_in_failingAnchors (page [mailto_link; external_link]) mailto_link.
Proof.
  apply (C4_other_scheme_not_reported (imports := Model.imports) (page [mailto_link; external_link])
           mailto_link "mailto:x@b.com"); [reflexivity | discriminate | reflexivity].
Defined.

Lemma C5_witness :
  exists r,
    audit (page [external_link; noopener_link]) = Normal r /\
    score r = 0%Z /\ failingAnchors r <> [].
Proof.
  eexists. split; [vm_compute; reflexivity|].
  with_product (page [external_link; noopener_link]) ltac:(fun p =>
    destruct (C5_score_binary (imports := Model.imports) (page [external_link; noopener_link]) p eq_refl)
      as [_ H0]).
  split; [reflexivity|]. apply H0. reflexivity.
Defined.

Lemma C6_witness :
  exists kept,
    failing_elements (page [external_link; no_href]) = Normal kept /\
    no_href ∈ kept /\ item_href (summary no_href) = "Unknown".
Proof.
  with_product (page [external_link; no_href]) ltac:(fun p =>
    destruct (C6_summary_rows (imports := Model.imports) (page [external_link; no_href]) p eq_refl eq_refl)
      as (kept & Hk & _ & _ & H)).
  exists kept. split; [exact Hk|].
  apply H; [apply in_page_2 | reflexivity | reflexivity | reflexivity].
Defined.

Lemma C7_witness :
  exists r, audit (page [not_a_url; external_link]) = Normal r /\
            warning_for not_a_url ∈ warnings r.
Proof.
  destruct (C7_no_exception (imports := Model.imports)
              (page [not_a_url; external_link])) as [H _].
  - intros a Ha. apply list_elem_of_In in Ha.
    destruct Ha as [<- | [<- | []]]; discriminate.
  - destruct (H "a.com" eq_refl) as (r & Hr & _ & Hw).
    exists r. split; [exact Hr|]. apply Hw.
    + apply in_page_1.
    + by apply empty_rel_is_risky.
    + reflexivity.
Defined.

Lemma C8_witness :
  exists kept,
    failing_elements (page [same_host_link; external_link; mailto_link; no_href])
      = Normal kept /\
    kept `sublist_of` [same_host_link; external_link; mailto_link; no_href].
Proof.
  with_product (page [same_host_link; external_link; mailto_link; no_href])
    ltac:(fun p =>
      destruct (C8_stable_filter (imports := Model.imports)
                  (page [same_host_link; external_link; mailto_link; no_href]) p eq_refl)
        as (pageHost & kept & _ & Hk & _ & Hsub & _)).
  exists kept. split; [exact Hk | exact Hsub].
Defined.

Lemma C10_witness :
  exists r,
    audit (page [not_a_url]) = Normal r /\
    warnings r = [warning_for not_a_url] /\
    failingAnchors r = [] /\ score r = 1%Z.
Proof.
  apply (C10_warning_without_failure (imports := Model.imports) "https://a.com" "a.com" not_a_url "not a url");
    [reflexivity | by apply empty_rel_is_risky | reflexivity | discriminate
    | reflexivity | reflexivity].
Defined.

(** *** More runs on the sample pages *)

Lemma X1_witness :
  item_target (summary external_link) = "_blank" /\
  ~ contains (item_rel (summary external_link)) "noopener" /\
  ~ contains (item_rel (summary external_link)) "noreferrer" /\
  (item_href (summary external_link) = "Unknown" \/
   startsWith (toLowerCase (item_href (summary external_link))) "http" = true).
Proof.
  with_product (page [same_host_link; external_link]) ltac:(fun p =>
    apply (X1_rows_are_unsafe (imports := Model.imports)
             (page [same_host_link; external_link]) p (summary external_link) eq_refl)).
  vm_compute. apply list_elem_of_here.
Defined.

Lemma X2_witness :
  exists r, audit (page [external_link; same_tab_not_a_url]) = Normal r.
Proof.
  apply (proj2 (X2_returns_exactly_when (imports := Model.imports)
                  (page [external_link; same_tab_not_a_url]))).
  split.
  - exists "a.com". reflexivity.
  - intros a Ha _. apply list_elem_of_In in Ha.
    destruct Ha as [<- | [<- | []]]; discriminate.
Defined.

Lemma X3_witness :
  exists r,
    audit (page []) = Normal r /\
    failingAnchors r = [] /\ warnings r = [] /\ score r = 1%Z.
Proof.
  apply (X3_no_anchor_passes (imports := Model.imports) "https://a.com" "a.com").
  reflexivity.
Defined.

Lemma X4_witness :
  exists r,
    audit (page [external_link; not_a_url]) = Normal r /\
    failingAnchors r = [summary external_link] /\
    warnings r = [warning_for not_a_url].
Proof.
  with_product (page [external_link]) ltac:(fun p1 =>
    with_product (page [not_a_url]) ltac:(fun p2 =>
      destruct (X4_audit_of_concatenation (imports := Model.imports)
                  "https://a.com" [external_link] [not_a_url] p1 p2 eq_refl eq_refl)
        as (r & Hr & Hrows & Hw & _))).
  exists r. split; [exact Hr|]. split; [exact Hrows | exact Hw].
Defined.

Lemma X5_witness :
  audit (page [external_link; same_tab_not_a_url; no_href]) =
  audit (page [external_link; no_href]).
Proof.
  apply (X5_safe_anchor_is_ignored (imports := Model.imports)
           "https://a.com" [external_link] [no_href] same_tab_not_a_url).
  left. simpl. discriminate.
Defined.

Lemma X6_witness :
  exists r',
    audit (page [external_link; no_href]) = Normal r' /\
    failingAnchors r' = [summary external_link; summary no_href].
Proof.
  with_product (page [same_host_link; external_link; no_href]) ltac:(fun p =>
    destruct (X6_reported_anchors_stay_reported (imports := Model.imports)
                (page [same_host_link; external_link; no_href]) p
                [external_link; no_href] eq_refl eq_refl)
      as (r' & Hr' & Hrows & _)).
  exists r'. split; [exact Hr' | exact Hrows].
Defined.

Lemma X7_witness :
  exists r', audit (page [no_href; external_link]) = Normal r' /\ score r' = 0%Z.
Proof.
  with_product (page [external_link; no_href]) ltac:(fun p =>
    destruct (X7_order_of_anchors (imports := Model.imports)
                "https://a.com" [external_link; no_href] [no_href; external_link] p
                (perm_swap _ _ _) eq_refl)
      as (r' & Hr' & _ & _ & Hs)).
  exists r'. split; [exact Hr' | exact Hs].
Defined.

Lemma X8_witness :
  appears_in_failingAnchors (page [same_host_link; external_link]) external_link /\
  exists r, audit (page [same_host_link; external_link]) = Normal r /\
            summary external_link ∈ failingAnchors r.
Proof.
  with_product (page [same_host_link; external_link]) ltac:(fun p =>
    destruct (X8_unsafe_anchor_is_reported (imports := Model.imports)
                (page [same_host_link; external_link]) p "a.com" external_link
                eq_refl eq_refl) as [H1 H2];
    [ | | | | split; [exact H1 | exists p; split; [reflexivity | exact H2]]]).
  - apply in_page_2.
  - by apply empty_rel_is_risky.
  - right. exists "b.com". split; [reflexivity | discriminate].
  - right. right. exists "https://b.com/x". split; reflexivity.
Defined.

Lemma X9_witness :
  ~ (behavioral_risk mailto_link /\
     cross_origin_or_unparsable "a.com" mailto_link /\
     http_or_no_href mailto_link).
Proof.
  with_product (page [same_host_link; mailto_link]) ltac:(fun p =>
    apply (proj1 (X9_pass_iff_no_unsafe_anchor (imports := Model.imports)
                    (page [same_host_link; mailto_link]) p "a.com" eq_refl eq_refl)
                 eq_refl mailto_link)).
  apply in_page_2.
Defined.

Lemma X10_witness :
  exists r,
    audit (page [same_tab_not_a_url; not_a_url; external_link]) = Normal r /\
    length (failingAnchors r) <= 3 /\ length (warnings r) <= 3.
Proof.
  with_product (page [same_tab_not_a_url; not_a_url; external_link]) ltac:(fun p =>
    destruct (X10_rows_and_warnings_bounded (imports := Model.imports)
                (page [same_tab_not_a_url; not_a_url; external_link]) p eq_refl)
      as (H1 & H2 & _);
    exists p; split; [reflexivity | split; [exact H1 | exact H2]]).
Defined.

Lemma X11_witness :
  stageC (anchor (Some "http://") (Some "_blank") (Some "nofollow") None) =
  stageC bare_scheme.
Proof.
  apply X11_scheme_test_ignores_case. reflexivity.
Defined.
